(** * The Pepper plugin registry (chrome/common/pepper_plugin_registry.cc)

    A shallow embedding of the plugin registry of the repository: the
    descriptor parser ([ComputeBuiltInPlugins],
    [ComputePluginsFromCommandLine], [ComputeList]) and the registry itself
    (its constructor and destructor, [GetInfoForPlugin], [GetLiveModule],
    [AddLiveModule], [PluginModuleDead]), followed by the properties the
    specification states about them.

    Conventions of the embedding:
    - [std::string] and [FilePath] (POSIX build, the [#else] branch of the
      source) are [string]; [std::vector] is [list], [push_back] appends;
    - [std::map] is a [gmap]; where the source iterates over a map the entries
      are visited in increasing key order ([in_key_order]);
    - a [PluginModule*] is the number of the allocation that made the object;
    - a failed [DCHECK] / a reached [NOTREACHED] (debug build) and a vector
      subscript past the end are outcomes of their own ([Fatal]);
    - [DLOG] appends to a list of diagnostics. *)

From Stdlib Require Import Ascii String.
From stdpp Require Import base option list strings gmap fin_maps sorting.

Local Open Scope stdpp_scope.

(** ** Outcomes *)

Inductive Violation :=
  | DuplicateLiveModule    (* DCHECK in AddLiveModule *)
  | ModuleNotFound         (* NOTREACHED in PluginModuleDead *)
  | LiveModulesNotEmpty    (* DCHECK in ~PepperPluginRegistry *)
  | DanglingModule         (* Release on an object that is gone *)
  | IndexOutOfRange.       (* v[i] with i >= v.size() *)

Inductive Outcome (A : Type) :=
  | Done (a : A)
  | Fatal (v : Violation).
Arguments Done {A} a.
Arguments Fatal {A} v.

#[export] Instance Outcome_ret : MRet Outcome := @Done.
#[export] Instance Outcome_bind : MBind Outcome := λ A B f c,
  match c with
  | Done a => f a
  | Fatal v => Fatal v
  end.

(** [v[i]] on a [std::vector]. *)
Definition at_index {A} (v : list A) (i : nat) : Outcome A :=
  match v !! i with
  | Some x => Done x
  | None => Fatal IndexOutOfRange
  end.

Definition Log := list string.

(** ** Strings *)

Abbreviation FilePath := string.

(** [std::string::empty]. *)
Definition string_empty (s : string) : bool :=
  match s with
  | EmptyString => true
  | String _ _ => false
  end.

(** The characters of [kWhitespaceASCII]: TAB, LF, VT, FF, CR and space. *)
Definition IsWhitespace (c : ascii) : bool :=
  bool_decide (nat_of_ascii c ∈ [9; 10; 11; 12; 13; 32]).

Fixpoint TrimLeading (s : string) : string :=
  match s with
  | EmptyString => EmptyString
  | String c rest => if IsWhitespace c then TrimLeading rest else s
  end.

Fixpoint TrimTrailing (s : string) : string :=
  match s with
  | EmptyString => EmptyString
  | String c rest =>
      match TrimTrailing rest with
      | EmptyString => if IsWhitespace c then EmptyString else String c EmptyString
      | kept => String c kept
      end
  end.

Definition TrimWhitespace (s : string) : string := TrimTrailing (TrimLeading s).

(** The pieces of [str] between the occurrences of [sep], untrimmed. *)
Fixpoint pieces (sep : ascii) (str : string) : list string :=
  match str with
  | EmptyString => [EmptyString]
  | String c rest =>
      if Ascii.eqb c sep then EmptyString :: pieces sep rest
      else match pieces sep rest with
           | piece :: more => String c piece :: more
           | [] => [String c EmptyString]
           end
  end.

(** Modelled from the spec: [base::SplitString] (base/string_split.h) is not
    among the sources. The spec has a string "split on" a delimiter character;
    the source notes, where it pads the Flash version, that an empty string
    gives one empty piece, and its FORMAT comment allows linear white space
    around the delimiters: the string is cut at every occurrence of the
    delimiter (n delimiters give n+1 pieces) and each piece is stripped of
    leading and trailing white space. *)
Definition SplitString (str : string) (c : ascii) : list string :=
  TrimWhitespace <$> pieces c str.

(** Modelled from the spec: [JoinString] (base/string_util.h) is not among the
    sources; it is the inverse the source uses to rebuild the dotted version:
    the parts in order with the separator between neighbours. *)
Fixpoint JoinString (parts : list string) (sep : ascii) : string :=
  match parts with
  | [] => EmptyString
  | [p] => p
  | p :: rest => p +:+ String sep (JoinString rest sep)
  end.

(** Number of dot-separated components of a version string. *)
Definition version_components (version : string) : nat :=
  length (SplitString version ".").

(** ** Descriptors *)

(** Modelled from the spec: [webkit::npapi::WebPluginMimeType] is declared
    outside the sources; a (mime-type, file-extension, description) triple
    built by its three-argument constructor. *)
Record WebPluginMimeType := {
  mime_type : string;
  file_extension : string;
  mime_description : string;
}.

(** [PepperPluginInfo::EntryPoints]: three function pointers, named by the
    symbol they point to, [None] for NULL. *)
Record EntryPoints := {
  get_interface : option string;
  initialize_module : option string;
  shutdown_module : option string;
}.

Record PepperPluginInfo := {
  is_internal : bool;
  is_out_of_process : bool;
  path : FilePath;
  name : string;
  description : string;
  version : string;
  mime_types : list WebPluginMimeType;
  internal_entry_points : EntryPoints;
}.

#[export] Instance WebPluginMimeType_eq_dec : EqDecision WebPluginMimeType.
Proof. solve_decision. Defined.
#[export] Instance EntryPoints_eq_dec : EqDecision EntryPoints.
Proof. solve_decision. Defined.
#[export] Instance PepperPluginInfo_eq_dec : EqDecision PepperPluginInfo.
Proof. solve_decision. Defined.

(** [PepperPluginInfo::PepperPluginInfo()]. *)
Definition PepperPluginInfo_new : PepperPluginInfo := {|
  is_internal := false;
  is_out_of_process := false;
  path := "";
  name := "";
  description := "";
  version := "";
  mime_types := [];
  internal_entry_points :=
    {| get_interface := None; initialize_module := None; shutdown_module := None |};
|}.

Definition set_is_internal (b : bool) (p : PepperPluginInfo) : PepperPluginInfo :=
  {| is_internal := b; is_out_of_process := is_out_of_process p; path := path p;
     name := name p; description := description p; version := version p;
     mime_types := mime_types p; internal_entry_points := internal_entry_points p |}.
Definition set_is_out_of_process (b : bool) (p : PepperPluginInfo) : PepperPluginInfo :=
  {| is_internal := is_internal p; is_out_of_process := b; path := path p;
     name := name p; description := description p; version := version p;
     mime_types := mime_types p; internal_entry_points := internal_entry_points p |}.
Definition set_path (f : FilePath) (p : PepperPluginInfo) : PepperPluginInfo :=
  {| is_internal := is_internal p; is_out_of_process := is_out_of_process p; path := f;
     name := name p; description := description p; version := version p;
     mime_types := mime_types p; internal_entry_points := internal_entry_points p |}.
Definition set_name (s : string) (p : PepperPluginInfo) : PepperPluginInfo :=
  {| is_internal := is_internal p; is_out_of_process := is_out_of_process p; path := path p;
     name := s; description := description p; version := version p;
     mime_types := mime_types p; internal_entry_points := internal_entry_points p |}.
Definition set_description (s : string) (p : PepperPluginInfo) : PepperPluginInfo :=
  {| is_internal := is_internal p; is_out_of_process := is_out_of_process p; path := path p;
     name := name p; description := s; version := version p;
     mime_types := mime_types p; internal_entry_points := internal_entry_points p |}.
Definition set_version (s : string) (p : PepperPluginInfo) : PepperPluginInfo :=
  {| is_internal := is_internal p; is_out_of_process := is_out_of_process p; path := path p;
     name := name p; description := description p; version := s;
     mime_types := mime_types p; internal_entry_points := internal_entry_points p |}.
Definition push_mime_type (m : WebPluginMimeType) (p : PepperPluginInfo) : PepperPluginInfo :=
  {| is_internal := is_internal p; is_out_of_process := is_out_of_process p; path := path p;
     name := name p; description := description p; version := version p;
     mime_types := mime_types p ++ [m]; internal_entry_points := internal_entry_points p |}.
Definition set_internal_entry_points (e : EntryPoints) (p : PepperPluginInfo) : PepperPluginInfo :=
  {| is_internal := is_internal p; is_out_of_process := is_out_of_process p; path := path p;
     name := name p; description := description p; version := version p;
     mime_types := mime_types p; internal_entry_points := e |}.

(** ** The environment of the parser *)

(** The switches of [CommandLine::ForCurrentProcess()] the source reads;
    [GetSwitchValue...] of an absent switch is the empty string. *)
Record CommandLine := {
  kEnableRemoting : bool;
  kPpapiOutOfProcess : bool;
  kPpapiFlashPath : string;
  kPpapiFlashVersion : string;
  kRegisterPepperPlugins : string;
}.

(** What the built-in enumeration asks of its surroundings: [PathService::Get]
    for the two plugin files ([None] when it returns false),
    [file_util::PathExists], and whether the build defines ENABLE_REMOTING. *)
Record Platform := {
  FILE_PDF_PLUGIN : option FilePath;
  FILE_NACL_PLUGIN : option FilePath;
  PathExists : FilePath → bool;
  ENABLE_REMOTING : bool;
}.

(** The function-local statics of [ComputeBuiltInPlugins]. *)
Record Statics := {
  skip_pdf_file_check : bool;
  skip_nacl_file_check : bool;
}.

Definition kPDFPluginName : string := "Chrome PDF Viewer".
Definition kPDFPluginMimeType : string := "application/pdf".
Definition kPDFPluginExtension : string := "pdf".
Definition kPDFPluginDescription : string := "Portable Document Format".

Definition kNaClPluginName : string := "Chrome NaCl".
Definition kNaClPluginMimeType : string := "application/x-nacl".
Definition kNaClPluginExtension : string := "nexe".
Definition kNaClPluginDescription : string := "Native Client Executable".

Definition kRemotingPluginMimeType : string := "pepper-application/x-chromoting".

Definition kFlashPluginName : string := "Shockwave Flash".
Definition kFlashPluginSwfMimeType : string := "application/x-shockwave-flash".
Definition kFlashPluginSwfExtension : string := "swf".
Definition kFlashPluginSwfDescription : string := "Shockwave Flash".
Definition kFlashPluginSplMimeType : string := "application/futuresplash".
Definition kFlashPluginSplExtension : string := "spl".
Definition kFlashPluginSplDescription : string := "FutureSplash Player".

(** ** ComputeBuiltInPlugins *)

Definition pdf_plugin (file : FilePath) : PepperPluginInfo :=
  push_mime_type
    {| mime_type := kPDFPluginMimeType; file_extension := kPDFPluginExtension;
       mime_description := kPDFPluginDescription |}
    (set_name kPDFPluginName (set_path file PepperPluginInfo_new)).

Definition nacl_plugin (file : FilePath) : PepperPluginInfo :=
  push_mime_type
    {| mime_type := kNaClPluginMimeType; file_extension := kNaClPluginExtension;
       mime_description := kNaClPluginDescription |}
    (set_name kNaClPluginName (set_path file PepperPluginInfo_new)).

Definition remoting_plugin : PepperPluginInfo :=
  set_internal_entry_points
    {| get_interface := Some "remoting::PPP_GetInterface";
       initialize_module := Some "remoting::PPP_InitializeModule";
       shutdown_module := Some "remoting::PPP_ShutdownModule" |}
    (push_mime_type
       {| mime_type := kRemotingPluginMimeType; file_extension := "";
          mime_description := "" |}
       (set_path "internal-chromoting" (set_is_internal true PepperPluginInfo_new))).

Definition ComputeBuiltInPlugins (pf : Platform) (cl : CommandLine)
    (st : Statics) (plugins : list PepperPluginInfo)
    : list PepperPluginInfo * Statics :=
  (* PDF. *)
  let '(plugins, skip_pdf) :=
    match FILE_PDF_PLUGIN pf with
    | Some file =>
        if skip_pdf_file_check st || PathExists pf file
        then (plugins ++ [pdf_plugin file], true)
        else (plugins, skip_pdf_file_check st)
    | None => (plugins, skip_pdf_file_check st)
    end in
  (* Handle the Native Client plugin just like the PDF plugin. *)
  let '(plugins, skip_nacl) :=
    match FILE_NACL_PLUGIN pf with
    | Some file =>
        if skip_nacl_file_check st || PathExists pf file
        then (plugins ++ [nacl_plugin file], true)
        else (plugins, skip_nacl_file_check st)
    | None => (plugins, skip_nacl_file_check st)
    end in
  (* Remoting. *)
  let plugins :=
    if ENABLE_REMOTING pf && kEnableRemoting cl
    then plugins ++ [remoting_plugin]
    else plugins in
  (plugins, {| skip_pdf_file_check := skip_pdf; skip_nacl_file_check := skip_nacl |}).

(** ** ComputePluginsFromCommandLine *)

(** The padding of [flash_version_numbers], lines 341-353. *)
Definition pad_flash_version_numbers (flash_version : string) : Outcome (list string) :=
  let numbers := SplitString flash_version "." in
  numbers ←
    (if bool_decide (length numbers < 1) then Done (numbers ++ ["10"])
     else
       first ← at_index numbers 0;
       if string_empty first then Done (<[0 := "10"]> numbers) else Done numbers);
  let numbers := if bool_decide (length numbers < 2) then numbers ++ ["2"] else numbers in
  let numbers := if bool_decide (length numbers < 3) then numbers ++ ["999"] else numbers in
  let numbers := if bool_decide (length numbers < 4) then numbers ++ ["999"] else numbers in
  Done numbers.

(** The Pepper Flash descriptor, lines 333-366. *)
Definition flash_plugin (out_of_process : bool) (flash_path flash_version : string)
    : Outcome PepperPluginInfo :=
  let plugin := set_is_out_of_process out_of_process PepperPluginInfo_new in
  let plugin := set_path flash_path plugin in
  let plugin := set_name kFlashPluginName plugin in
  numbers ← pad_flash_version_numbers flash_version;
  major ← at_index numbers 0;
  minor ← at_index numbers 1;
  build ← at_index numbers 2;
  let plugin :=
    set_description (name plugin +:+ " " +:+ major +:+ "." +:+ minor +:+ " r" +:+ build)
      plugin in
  let plugin := set_version (JoinString numbers ".") plugin in
  let plugin :=
    push_mime_type
      {| mime_type := kFlashPluginSwfMimeType; file_extension := kFlashPluginSwfExtension;
         mime_description := kFlashPluginSwfDescription |} plugin in
  let plugin :=
    push_mime_type
      {| mime_type := kFlashPluginSplMimeType; file_extension := kFlashPluginSplExtension;
         mime_description := kFlashPluginSplDescription |} plugin in
  Done plugin.

(** The inner loop, lines 412-417: [for (j = 1; j < parts.size(); ++j)],
    given [parts] from index 1 on. *)
Fixpoint push_mime_types (mimes : list string) (plugin : PepperPluginInfo)
    : PepperPluginInfo :=
  match mimes with
  | [] => plugin
  | m :: more =>
      push_mime_types more
        (push_mime_type
           {| mime_type := m; file_extension := ""; mime_description := description plugin |}
           plugin)
  end.

(** The descriptor of one accepted entry, lines 393-417. *)
Definition entry_plugin (out_of_process : bool) (parts : list string)
    : Outcome PepperPluginInfo :=
  file_and_name ← at_index parts 0;
  let name_parts := SplitString file_and_name "#" in
  let plugin := set_is_out_of_process out_of_process PepperPluginInfo_new in
  file ← at_index name_parts 0;
  let plugin := set_path file plugin in
  plugin ←
    (if bool_decide (1 < length name_parts)
     then s ← at_index name_parts 1; Done (set_name s plugin)
     else Done plugin);
  plugin ←
    (if bool_decide (2 < length name_parts)
     then s ← at_index name_parts 2; Done (set_description s plugin)
     else Done plugin);
  plugin ←
    (if bool_decide (3 < length name_parts)
     then s ← at_index name_parts 3; Done (set_version s plugin)
     else Done plugin);
  Done (push_mime_types (drop 1 parts) plugin).

Definition kMimeTypeNotFound : string := "Required mime-type not found".

(** The outer loop, lines 385-420, over [modules] from index [i] on. *)
Fixpoint register_modules (out_of_process : bool) (modules : list string)
    (plugins : list PepperPluginInfo) (log : Log)
    : Outcome (list PepperPluginInfo * Log) :=
  match modules with
  | [] => Done (plugins, log)
  | module :: rest =>
      let parts := SplitString module ";" in
      if bool_decide (length parts < 2)
      then register_modules out_of_process rest plugins (log ++ [kMimeTypeNotFound])
      else
        plugin ← entry_plugin out_of_process parts;
        register_modules out_of_process rest (plugins ++ [plugin]) log
  end.

Definition ComputePluginsFromCommandLine (cl : CommandLine)
    (plugins : list PepperPluginInfo) (log : Log)
    : Outcome (list PepperPluginInfo * Log) :=
  let out_of_process := kPpapiOutOfProcess cl in
  (* Handle any Pepper Flash first. *)
  let flash_path := kPpapiFlashPath cl in
  plugins ←
    (if negb (string_empty flash_path)
     then
       plugin ← flash_plugin out_of_process flash_path (kPpapiFlashVersion cl);
       Done (plugins ++ [plugin])
     else Done plugins);
  (* Handle other plugins. *)
  let value := kRegisterPepperPlugins cl in
  if string_empty value then Done (plugins, log)
  else register_modules out_of_process (SplitString value ",") plugins log.

(** ** ComputeList *)

Definition ComputeList (pf : Platform) (cl : CommandLine) (st : Statics)
    (plugins : list PepperPluginInfo) (log : Log)
    : Outcome (list PepperPluginInfo * Log * Statics) :=
  let '(plugins, st) := ComputeBuiltInPlugins pf cl st plugins in
  '(plugins, log) ← ComputePluginsFromCommandLine cl plugins log;
  Done (plugins, log, st).

(** ** The registry and the modules it tracks *)

(** A [webkit::ppapi::PluginModule*]: the number of the allocation. *)
Abbreviation PluginModule := nat.

(** The registry object ([plugin_list_], [preloaded_modules_], an
    [OwningModuleMap] of [scoped_refptr]s, and [live_modules_], a
    [NonOwningModuleMap] of raw pointers) together with the [PluginModule]
    objects of the process: the reference count of each object alive, the
    allocation counter, and the log. *)
Record World := {
  plugin_list_ : list PepperPluginInfo;
  preloaded_modules_ : gmap FilePath PluginModule;
  live_modules_ : gmap FilePath PluginModule;
  ref_count_ : gmap PluginModule nat;
  next_module_ : PluginModule;
  log_ : Log;
}.

Definition set_live_modules (m : gmap FilePath PluginModule) (w : World) : World :=
  {| plugin_list_ := plugin_list_ w; preloaded_modules_ := preloaded_modules_ w;
     live_modules_ := m; ref_count_ := ref_count_ w;
     next_module_ := next_module_ w; log_ := log_ w |}.


(** Iteration over a [std::map<FilePath, _>]: increasing key order. *)
Definition key_le (a b : FilePath * PluginModule) : Prop := String.leb a.1 b.1 = true.

#[export] Instance key_le_dec : RelDecision key_le.
Proof. intros a b. unfold key_le. apply _. Defined.

Definition in_key_order (m : gmap FilePath PluginModule) : list (FilePath * PluginModule) :=
  merge_sort key_le (map_to_list m).

(** The loop of [GetInfoForPlugin] over [plugin_list_] from index [i] on. *)
Fixpoint scan_plugin_list (file : FilePath) (plugins : list PepperPluginInfo)
    : option PepperPluginInfo :=
  match plugins with
  | [] => None
  | info :: rest =>
      if decide (file = path info) then Some info else scan_plugin_list file rest
  end.

Definition GetInfoForPlugin (file : FilePath) (w : World) : option PepperPluginInfo :=
  scan_plugin_list file (plugin_list_ w).

Definition GetLiveModule (file : FilePath) (w : World) : option PluginModule :=
  live_modules_ w !! file.

Definition AddLiveModule (file : FilePath) (module : PluginModule) (w : World) : Outcome World :=
  if decide (live_modules_ w !! file = None)
  then Done (set_live_modules (<[file := module]> (live_modules_ w)) w)
  else Fatal DuplicateLiveModule.

Definition PluginModuleDead (dead_module : PluginModule) (w : World) : Outcome World :=
  match list_find (λ i, i.2 = dead_module) (in_key_order (live_modules_ w)) with
  | Some (_, (file, _)) => Done (set_live_modules (delete file (live_modules_ w)) w)
  | None => Fatal ModuleNotFound
  end.










Definition new_registry (plugins : list PepperPluginInfo) (log : Log) : World :=
  {| plugin_list_ := plugins; preloaded_modules_ := ∅; live_modules_ := ∅;
     ref_count_ := ∅; next_module_ := 0; log_ := log |}.





(** ** Notions used to state the properties *)

Fixpoint contains (c : ascii) (s : string) : bool :=
  match s with
  | EmptyString => false
  | String a rest => Ascii.eqb a c || contains c rest
  end.

Fixpoint occurrences (c : ascii) (s : string) : nat :=
  match s with
  | EmptyString => 0
  | String a rest => (if Ascii.eqb a c then 1 else 0) + occurrences c rest
  end.

(** An entry of the specification string is accepted when it has at least
    two parts, that is at least one MIME type. *)
Definition accepted (entry : string) : Prop :=
  2 ≤ length (SplitString entry ";").

#[export] Instance accepted_dec entry : Decision (accepted entry).
Proof. unfold accepted. apply _. Defined.

(** What the padding of the Flash version comes to: the first component
    defaults to 10 when empty, and the components 2, 999 and 999 fill the
    positions 1, 2 and 3 when the string does not have them. *)
Definition padded_numbers (flash_version : string) : list string :=
  match SplitString flash_version "." with
  | [] => ["10"; "2"; "999"; "999"]
  | first :: others =>
      (if string_empty first then "10" else first)
        :: others ++ drop (length others) ["2"; "999"; "999"]
  end.

(** The descriptor the padding rule gives Pepper Flash: the description is
    "<name> <major>.<minor> r<build>", the version the padded components
    joined by dots. *)
Definition flash_descriptor (out_of_process : bool) (flash_path flash_version : string)
    : PepperPluginInfo :=
  let numbers := padded_numbers flash_version in
  let component i := default "" (numbers !! i) in
  {| is_internal := false;
     is_out_of_process := out_of_process;
     path := flash_path;
     name := kFlashPluginName;
     description :=
       kFlashPluginName +:+ " " +:+ component 0 +:+ "." +:+ component 1
         +:+ " r" +:+ component 2;
     version := JoinString numbers ".";
     mime_types :=
       [ {| mime_type := kFlashPluginSwfMimeType;
            file_extension := kFlashPluginSwfExtension;
            mime_description := kFlashPluginSwfDescription |};
         {| mime_type := kFlashPluginSplMimeType;
            file_extension := kFlashPluginSplExtension;
            mime_description := kFlashPluginSplDescription |} ];
     internal_entry_points := internal_entry_points PepperPluginInfo_new |}.

(** The descriptor the grammar gives an entry:
    [path # name # description # version ; mime-type ; ...]. *)
Definition entry_descriptor (out_of_process : bool) (entry : string) : PepperPluginInfo :=
  let parts := SplitString entry ";" in
  let fields := SplitString (default "" (parts !! 0)) "#" in
  let field i := default "" (fields !! i) in
  {| is_internal := false;
     is_out_of_process := out_of_process;
     path := field 0;
     name := field 1;
     description := field 2;
     version := field 3;
     mime_types :=
       (λ m, {| mime_type := m; file_extension := ""; mime_description := field 2 |})
         <$> drop 1 parts;
     internal_entry_points := internal_entry_points PepperPluginInfo_new |}.

(** The entries of the specification string; an empty string (the switch is
    absent) has none. *)
Definition specified_modules (cl : CommandLine) : list string :=
  if string_empty (kRegisterPepperPlugins cl) then []
  else SplitString (kRegisterPepperPlugins cl) ",".

Definition flash_descriptors (cl : CommandLine) : list PepperPluginInfo :=
  if string_empty (kPpapiFlashPath cl) then []
  else [flash_descriptor (kPpapiOutOfProcess cl) (kPpapiFlashPath cl) (kPpapiFlashVersion cl)].

Definition command_line_descriptors (cl : CommandLine) : list PepperPluginInfo :=
  flash_descriptors cl
    ++ (entry_descriptor (kPpapiOutOfProcess cl) <$> filter accepted (specified_modules cl)).

Definition command_line_diagnostics (cl : CommandLine) : Log :=
  replicate (length (filter (λ entry, ¬ accepted entry) (specified_modules cl)))
    kMimeTypeNotFound.

Definition built_in_descriptors (pf : Platform) (cl : CommandLine) (st : Statics)
    : list PepperPluginInfo :=
  (ComputeBuiltInPlugins pf cl st []).1.





(** ** Examples *)




(** A platform that ships the PDF plugin, and a command line that declares a
    plugin of its own under the same path. *)
Definition example_platform : Platform :=
  {| FILE_PDF_PLUGIN := Some "/opt/libpdf.so";
     FILE_NACL_PLUGIN := None;
     PathExists := λ _, true;
     ENABLE_REMOTING := false |}.

Definition example_command_line : CommandLine :=
  {| kEnableRemoting := false;
     kPpapiOutOfProcess := false;
     kPpapiFlashPath := "";
     kPpapiFlashVersion := "";
     kRegisterPepperPlugins := "/opt/libpdf.so#Other;application/x-other" |}.

(** A command line that declares two libraries, the first of which does not
    load. *)
Definition example_two_libraries : CommandLine :=
  {| kEnableRemoting := false;
     kPpapiOutOfProcess := false;
     kPpapiFlashPath := "";
     kPpapiFlashVersion := "";
     kRegisterPepperPlugins :=
       "/opt/broken.so;application/x-broken,/opt/good.so#Good;application/x-good" |}.

(** The platform of the example once the process is sandboxed: no file can
    be seen any more. *)
Definition example_sandboxed : Platform :=
  {| FILE_PDF_PLUGIN := Some "/opt/libpdf.so";
     FILE_NACL_PLUGIN := None;
     PathExists := λ _, false;
     ENABLE_REMOTING := false |}.

Definition example_statics : Statics :=
  {| skip_pdf_file_check := false; skip_nacl_file_check := false |}.

(** * Properties *)

(** ** Strings *)

Lemma pieces_length sep s : length (pieces sep s) = S (occurrences sep s).
Proof.
  induction s as [|a s IH]; simpl; [done|].
  destruct (Ascii.eqb a sep); simpl; [by rewrite IH|].
  destruct (pieces sep s); simpl in *; lia.
Qed.

Lemma SplitString_length s sep : length (SplitString s sep) = S (occurrences sep s).
Proof. unfold SplitString. by rewrite length_fmap, pieces_length. Qed.

Lemma pieces_without_sep sep s : contains sep s = false → pieces sep s = [s].
Proof.
  induction s as [|a s IH]; simpl; [done|].
  intros [Ha Hs]%orb_false_iff. rewrite Ha, (IH Hs). done.
Qed.

Lemma pieces_app_sep sep s t :
  contains sep s = false → pieces sep (s +:+ String sep t) = s :: pieces sep t.
Proof.
  induction s as [|a s IH]; simpl.
  - intros _. by rewrite Ascii.eqb_refl.
  - intros [Ha Hs]%orb_false_iff. rewrite Ha, (IH Hs). done.
Qed.

Lemma pieces_free_of_sep sep s : Forall (λ p, contains sep p = false) (pieces sep s).
Proof.
  induction s as [|a s IH]; simpl; [by repeat constructor|].
  destruct (Ascii.eqb a sep) eqn:Ha; [by constructor|].
  destruct (pieces sep s) as [|p ps]; [by repeat constructor; simpl; rewrite Ha|].
  inversion_clear IH. constructor; [|done]. simpl. by rewrite Ha.
Qed.

Lemma contains_TrimLeading c s : contains c s = false → contains c (TrimLeading s) = false.
Proof.
  induction s as [|a s IH]; simpl; [done|].
  intros H. destruct (IsWhitespace a); [|done].
  apply orb_false_iff in H as [_ H]. auto.
Qed.

Lemma contains_TrimTrailing c s : contains c s = false → contains c (TrimTrailing s) = false.
Proof.
  induction s as [|a s IH]; simpl; [done|].
  intros [Ha Hs]%orb_false_iff. specialize (IH Hs).
  destruct (TrimTrailing s); [destruct (IsWhitespace a)|]; simpl in *; by rewrite ?Ha.
Qed.

Lemma contains_TrimWhitespace c s :
  contains c s = false → contains c (TrimWhitespace s) = false.
Proof. intros H. by apply contains_TrimTrailing, contains_TrimLeading. Qed.

Lemma SplitString_free_of_sep s sep :
  Forall (λ p, contains sep p = false) (SplitString s sep).
Proof.
  unfold SplitString. apply Forall_fmap.
  eapply Forall_impl; [apply pieces_free_of_sep|]. apply contains_TrimWhitespace.
Qed.

Lemma contains_app c s t : contains c (s +:+ t) = contains c s || contains c t.
Proof. induction s as [|a s IH]; simpl; [done|]. by rewrite IH, orb_assoc. Qed.

Lemma occurrences_app c s t :
  occurrences c (s +:+ t) = occurrences c s + occurrences c t.
Proof. induction s as [|a s IH]; simpl; [done|]. rewrite IH. lia. Qed.

Lemma occurrences_absent c s : contains c s = false → occurrences c s = 0.
Proof.
  induction s as [|a s IH]; simpl; [done|].
  intros [Ha Hs]%orb_false_iff. by rewrite Ha, IH.
Qed.

Lemma occurrences_JoinString sep parts :
  Forall (λ p, contains sep p = false) parts →
  occurrences sep (JoinString parts sep) = pred (length parts).
Proof.
  induction 1 as [|p ps Hp Hps IH]; [done|].
  destruct ps as [|q ps]; [by apply occurrences_absent|].
  change (JoinString (p :: q :: ps) sep)
    with (p +:+ String sep (JoinString (q :: ps) sep)).
  rewrite occurrences_app, (occurrences_absent _ _ Hp).
  cbn [occurrences]. rewrite Ascii.eqb_refl, IH. done.
Qed.

Lemma SplitString_nonempty s sep : ∃ first others, SplitString s sep = first :: others.
Proof.
  pose proof (SplitString_length s sep) as H.
  destruct (SplitString s sep) as [|first others]; [done|eauto].
Qed.

Lemma SplitString_without_sep sep s :
  contains sep s = false → SplitString s sep = [TrimWhitespace s].
Proof. intros H. unfold SplitString. by rewrite pieces_without_sep. Qed.

Lemma SplitString_trailing_sep sep s :
  contains sep s = false →
  SplitString (s +:+ String sep "") sep = [TrimWhitespace s; ""].
Proof. intros H. unfold SplitString. by rewrite pieces_app_sep. Qed.

Lemma version_components_JoinString parts :
  parts ≠ [] → Forall (λ p, contains "." p = false) parts →
  version_components (JoinString parts ".") = length parts.
Proof.
  intros Hne Hfree. unfold version_components.
  rewrite SplitString_length, occurrences_JoinString by done.
  destruct parts; [done|]. done.
Qed.

(** ** The Flash version *)

Lemma pad_flash_version_numbers_eq flash_version :
  pad_flash_version_numbers flash_version = Done (padded_numbers flash_version).
Proof.
  unfold pad_flash_version_numbers, padded_numbers.
  destruct (SplitString_nonempty flash_version ".") as (first & others & ->).
  rewrite bool_decide_eq_false_2 by (simpl; lia).
  cbn [at_index lookup list_lookup mbind Outcome_bind].
  assert (∀ x : string,
    (let numbers := x :: others in
     let numbers := if bool_decide (length numbers < 2) then numbers ++ ["2"] else numbers in
     let numbers := if bool_decide (length numbers < 3) then numbers ++ ["999"] else numbers in
     let numbers := if bool_decide (length numbers < 4) then numbers ++ ["999"] else numbers in
     numbers) = x :: others ++ drop (length others) ["2"; "999"; "999"]) as Hpad.
  { intros x. destruct others as [|o1 [|o2 [|o3 rest]]]; cbn; try done.
    rewrite !bool_decide_eq_false_2 by (simpl; lia).
    by rewrite drop_nil, app_nil_r. }
  destruct (string_empty first); cbn; f_equal; apply Hpad.
Qed.

Lemma padded_numbers_length flash_version :
  length (padded_numbers flash_version) = 4 `max` version_components flash_version.
Proof.
  unfold padded_numbers, version_components.
  destruct (SplitString flash_version ".") as [|first others]; [done|].
  cbn [length]. rewrite length_app, length_drop. simpl. lia.
Qed.

Lemma padded_numbers_free_of_dot flash_version :
  Forall (λ p, contains "." p = false) (padded_numbers flash_version).
Proof.
  unfold padded_numbers.
  pose proof (SplitString_free_of_sep flash_version ".") as H.
  destruct (SplitString flash_version ".") as [|first others]; [by repeat constructor|].
  inversion_clear H. constructor.
  - by destruct (string_empty first).
  - apply Forall_app. split; [done|].
    apply (Forall_drop _ _ ["2"; "999"; "999"]). by repeat constructor.
Qed.

Lemma flash_plugin_eq out_of_process flash_path flash_version :
  flash_plugin out_of_process flash_path flash_version
  = Done (flash_descriptor out_of_process flash_path flash_version).
Proof.
  pose proof (padded_numbers_length flash_version) as Hlen.
  unfold flash_plugin, flash_descriptor. rewrite pad_flash_version_numbers_eq.
  destruct (padded_numbers flash_version) as [|major [|minor [|build more]]];
    simpl in Hlen; try lia.
  reflexivity.
Qed.

(** ** The entries of the specification string *)

Lemma push_mime_types_eq mimes plugin :
  push_mime_types mimes plugin =
  {| is_internal := is_internal plugin; is_out_of_process := is_out_of_process plugin;
     path := path plugin; name := name plugin; description := description plugin;
     version := version plugin;
     mime_types :=
       mime_types plugin ++
       ((λ m, {| mime_type := m; file_extension := "";
                 mime_description := description plugin |}) <$> mimes);
     internal_entry_points := internal_entry_points plugin |}.
Proof.
  revert plugin. induction mimes as [|m mimes IH]; intros plugin; simpl.
  - rewrite app_nil_r. by destruct plugin.
  - rewrite IH. simpl. by rewrite <- app_assoc.
Qed.

Lemma entry_plugin_eq out_of_process entry :
  accepted entry →
  entry_plugin out_of_process (SplitString entry ";")
  = Done (entry_descriptor out_of_process entry).
Proof.
  unfold accepted, entry_plugin, entry_descriptor. intros Hlen.
  destruct (SplitString entry ";") as [|file_and_name mimes]; [simpl in Hlen; lia|].
  simpl.
  destruct (SplitString_nonempty file_and_name "#") as (file & fields & ->).
  destruct fields as [|f1 [|f2 [|f3 more]]];
    repeat case_bool_decide; simpl in *; try lia;
    by rewrite push_mime_types_eq.
Qed.

Lemma register_modules_eq out_of_process modules plugins log :
  register_modules out_of_process modules plugins log =
  Done (plugins ++ (entry_descriptor out_of_process <$> filter accepted modules),
        log ++ replicate (length (filter (λ entry, ¬ accepted entry) modules))
                 kMimeTypeNotFound).
Proof.
  revert plugins log. induction modules as [|module rest IH]; intros plugins log.
  - simpl. by rewrite !app_nil_r.
  - cbn [register_modules]. case_bool_decide as Hparts.
    + assert (¬ accepted module) as Hno by (unfold accepted; lia).
      rewrite IH, filter_cons_False, filter_cons_True by done.
      cbn [length replicate]. by rewrite <- app_assoc.
    + assert (accepted module) as Hyes by (unfold accepted; lia).
      rewrite entry_plugin_eq by done. cbn [mbind Outcome_bind].
      rewrite IH, filter_cons_True, filter_cons_False by auto.
      rewrite fmap_cons. by rewrite <- app_assoc.
Qed.

Lemma ComputePluginsFromCommandLine_eq cl plugins log :
  ComputePluginsFromCommandLine cl plugins log =
  Done (plugins ++ command_line_descriptors cl, log ++ command_line_diagnostics cl).
Proof.
  unfold ComputePluginsFromCommandLine, command_line_descriptors,
    command_line_diagnostics, flash_descriptors, specified_modules.
  destruct (string_empty (kPpapiFlashPath cl)); cbn [negb mbind Outcome_bind];
    rewrite ?flash_plugin_eq; cbn [mbind Outcome_bind];
    destruct (string_empty (kRegisterPepperPlugins cl));
    rewrite ?register_modules_eq; simpl; by rewrite ?app_nil_r, <- ?app_assoc.
Qed.

(** ** The merged list *)

Lemma ComputeBuiltInPlugins_appends pf cl st plugins :
  ComputeBuiltInPlugins pf cl st plugins =
  (plugins ++ built_in_descriptors pf cl st, (ComputeBuiltInPlugins pf cl st []).2).
Proof.
  unfold built_in_descriptors, ComputeBuiltInPlugins.
  destruct (FILE_PDF_PLUGIN pf) as [pdf|], (FILE_NACL_PLUGIN pf) as [nacl|];
    repeat match goal with |- context [if ?b then _ else _] => destruct b end;
    simpl; by rewrite ?app_nil_r, <- ?app_assoc.
Qed.

Lemma ComputeList_eq pf cl st plugins log :
  ComputeList pf cl st plugins log =
  Done (plugins ++ built_in_descriptors pf cl st ++ command_line_descriptors cl,
        log ++ command_line_diagnostics cl,
        (ComputeBuiltInPlugins pf cl st []).2).
Proof.
  unfold ComputeList. rewrite ComputeBuiltInPlugins_appends.
  rewrite ComputePluginsFromCommandLine_eq. cbn [mbind Outcome_bind].
  by rewrite <- app_assoc.
Qed.

Lemma scan_plugin_list_app file built_in others info :
  scan_plugin_list file built_in = Some info →
  scan_plugin_list file (built_in ++ others) = Some info.
Proof.
  induction built_in as [|b built_in IH]; simpl; [done|].
  by case_decide.
Qed.

Lemma scan_plugin_list_Some file plugins info :
  scan_plugin_list file plugins = Some info ↔
  ∃ i, plugins !! i = Some info ∧ path info = file ∧
       ∀ j other, j < i → plugins !! j = Some other → path other ≠ file.
Proof.
  induction plugins as [|d plugins IH]; simpl.
  { split; [done|]. by intros (i & ? & _). }
  case_decide as Hd.
  - split.
    + intros [= ->]. exists 0. split_and!; [done|done|]. intros; lia.
    + intros (i & Hi & Hp & Hfirst). destruct i as [|i]; [by simplify_eq/=|].
      by destruct (Hfirst 0 d); [lia|done|].
  - rewrite IH. split.
    + intros (i & Hi & Hp & Hfirst). exists (S i). split_and!; [done|done|].
      intros [|j] other Hj Hother; simplify_eq/=; [done|].
      eapply Hfirst; [|done]. lia.
    + intros (i & Hi & Hp & Hfirst). destruct i as [|i]; [by simplify_eq/=|].
      exists i. split_and!; [done|done|].
      intros j other Hj Hother. apply (Hfirst (S j)); [lia|done].
Qed.

Lemma scan_plugin_list_None file plugins :
  scan_plugin_list file plugins = None ↔ ∀ info, info ∈ plugins → path info ≠ file.
Proof.
  induction plugins as [|d plugins IH]; simpl.
  { split; [|done]. intros _ info Hin. by apply elem_of_nil in Hin. }
  case_decide as Hd.
  - split; [done|]. intros H. destruct (H d); [left|done].
  - rewrite IH. split.
    + intros H info [->|Hin]%elem_of_cons; [done|auto].
    + intros H info Hin. apply H. by right.
Qed.

Lemma scan_plugin_list_is_Some file plugins info :
  info ∈ plugins → path info = file → is_Some (scan_plugin_list file plugins).
Proof.
  intros Hin Hpath. destruct (scan_plugin_list file plugins) eqn:Hscan; [done|].
  by destruct (proj1 (scan_plugin_list_None _ _) Hscan info).
Qed.

(** C5: the merged list holds the built-in descriptors before the
    command-line descriptors; [GetInfoForPlugin] returns the first descriptor
    of the list whose path is the one asked for, or nothing when there is
    none; so a path that a built-in descriptor has is answered from the
    built-in descriptors, whatever the command line declares for it. *)
Theorem GetInfoForPlugin_first_match (pf : Platform) (cl : CommandLine) (st : Statics) :
  let built_in := built_in_descriptors pf cl st in
  let from_command_line := command_line_descriptors cl in
  (∃ log st',
     ComputeBuiltInPlugins pf cl st [] = (built_in, st') ∧
     ComputePluginsFromCommandLine cl [] [] = Done (from_command_line, log) ∧
     ComputeList pf cl st [] [] = Done (built_in ++ from_command_line, log, st')) ∧
  ∀ (w : World) (file : FilePath),
    plugin_list_ w = built_in ++ from_command_line →
    (∀ info, GetInfoForPlugin file w = Some info ↔
       ∃ i, plugin_list_ w !! i = Some info ∧ path info = file ∧
            ∀ j other, j < i → plugin_list_ w !! j = Some other → path other ≠ file) ∧
    (GetInfoForPlugin file w = None ↔
       ∀ info, info ∈ plugin_list_ w → path info ≠ file) ∧
    (∀ b, b ∈ built_in → path b = file →
       ∃ info, scan_plugin_list file built_in = Some info ∧ info ∈ built_in ∧
               path info = file ∧ GetInfoForPlugin file w = Some info).
Proof.
  intros built_in from_command_line. split.
  { exists (command_line_diagnostics cl), (ComputeBuiltInPlugins pf cl st []).2.
    split_and!.
    - unfold built_in, built_in_descriptors. by destruct (ComputeBuiltInPlugins _ _ _ _).
    - by rewrite ComputePluginsFromCommandLine_eq.
    - by rewrite ComputeList_eq. }
  intros w file Hlist. unfold GetInfoForPlugin. split_and!.
  - intros info. apply scan_plugin_list_Some.
  - apply scan_plugin_list_None.
  - intros b Hb Hpath.
    destruct (scan_plugin_list_is_Some file built_in b Hb Hpath) as [info Hinfo].
    exists info. split_and!; [done| | |].
    + apply scan_plugin_list_Some in Hinfo as (i & Hi & _).
      by eapply list_elem_of_lookup_2.
    + by apply scan_plugin_list_Some in Hinfo as (i & _ & Hfile & _).
    + rewrite Hlist. by apply scan_plugin_list_app.
Qed.

(** C6: the specification string "/a/b#Foo#Desc#1.2.3;text/x-foo" gives
    exactly one descriptor: path /a/b, name Foo, description Desc, version
    1.2.3 and the one MIME type text/x-foo, described as Desc. *)
Theorem parse_full_entry (enable_remoting out_of_process : bool) (flash_version : string) :
  ComputePluginsFromCommandLine
    {| kEnableRemoting := enable_remoting;
       kPpapiOutOfProcess := out_of_process;
       kPpapiFlashPath := "";
       kPpapiFlashVersion := flash_version;
       kRegisterPepperPlugins := "/a/b#Foo#Desc#1.2.3;text/x-foo" |} [] []
  = Done ([ {| is_internal := false;
               is_out_of_process := out_of_process;
               path := "/a/b";
               name := "Foo";
               description := "Desc";
               version := "1.2.3";
               mime_types :=
                 [ {| mime_type := "text/x-foo"; file_extension := "";
                      mime_description := "Desc" |} ];
               internal_entry_points := internal_entry_points PepperPluginInfo_new |} ],
          []).
Proof. reflexivity. Qed.

(** C7: for every specification string the parser returns; its descriptors
    are those of the entries that have at least two ';'-separated parts, in
    order, and every other entry adds nothing but one diagnostic (the empty
    string has no entries at all). The specification "/a/b" gives no
    descriptor and one diagnostic, and in "/a/b,/c/d;text/x-d" the entry
    after the rejected one is still parsed. *)
Theorem rejected_entries_are_skipped (cl : CommandLine)
    (plugins : list PepperPluginInfo) (log : Log) :
  ComputePluginsFromCommandLine cl plugins log =
    Done (plugins ++ flash_descriptors cl
            ++ (entry_descriptor (kPpapiOutOfProcess cl)
                  <$> filter accepted (specified_modules cl)),
          log ++ replicate (length (filter (λ entry, ¬ accepted entry)
                                      (specified_modules cl)))
                   kMimeTypeNotFound) ∧
  ComputePluginsFromCommandLine
    {| kEnableRemoting := kEnableRemoting cl;
       kPpapiOutOfProcess := kPpapiOutOfProcess cl;
       kPpapiFlashPath := "";
       kPpapiFlashVersion := kPpapiFlashVersion cl;
       kRegisterPepperPlugins := "/a/b" |} [] []
  = Done ([], [kMimeTypeNotFound]) ∧
  ComputePluginsFromCommandLine
    {| kEnableRemoting := kEnableRemoting cl;
       kPpapiOutOfProcess := kPpapiOutOfProcess cl;
       kPpapiFlashPath := "";
       kPpapiFlashVersion := kPpapiFlashVersion cl;
       kRegisterPepperPlugins := "/a/b,/c/d;text/x-d" |} [] []
  = Done ([entry_descriptor (kPpapiOutOfProcess cl) "/c/d;text/x-d"], [kMimeTypeNotFound]).
Proof.
  split_and!; [|reflexivity..].
  by rewrite ComputePluginsFromCommandLine_eq.
Qed.

Lemma flash_only_eq out_of_process enable_remoting flash_path flash_version :
  flash_path ≠ "" →
  ComputePluginsFromCommandLine
    {| kEnableRemoting := enable_remoting;
       kPpapiOutOfProcess := out_of_process;
       kPpapiFlashPath := flash_path;
       kPpapiFlashVersion := flash_version;
       kRegisterPepperPlugins := "" |} [] []
  = Done ([flash_descriptor out_of_process flash_path flash_version], []).
Proof.
  intros Hpath. rewrite ComputePluginsFromCommandLine_eq.
  unfold command_line_descriptors, command_line_diagnostics, flash_descriptors,
    specified_modules. simpl.
  by destruct flash_path.
Qed.

(** C8: the padding rule turns the Flash version "" into 10.2.999.999, "11"
    into 11.2.999.999 and "11.5" into 11.5.999.999. *)
Theorem flash_version_padding (out_of_process enable_remoting : bool) (flash_path : string) :
  flash_path ≠ "" →
  let flash flash_version :=
    ComputePluginsFromCommandLine
      {| kEnableRemoting := enable_remoting;
         kPpapiOutOfProcess := out_of_process;
         kPpapiFlashPath := flash_path;
         kPpapiFlashVersion := flash_version;
         kRegisterPepperPlugins := "" |} [] [] in
  (∃ plugin, flash "" = Done ([plugin], []) ∧ version plugin = "10.2.999.999") ∧
  (∃ plugin, flash "11" = Done ([plugin], []) ∧ version plugin = "11.2.999.999") ∧
  (∃ plugin, flash "11.5" = Done ([plugin], []) ∧ version plugin = "11.5.999.999").
Proof.
  intros Hpath flash. unfold flash.
  split_and!; (eexists; split; [by apply flash_only_eq|reflexivity]).
Qed.

Lemma flash_version_padding_witness :
  ∃ plugin,
    ComputePluginsFromCommandLine
      {| kEnableRemoting := false;
         kPpapiOutOfProcess := false;
         kPpapiFlashPath := "/opt/flash.so";
         kPpapiFlashVersion := "11";
         kRegisterPepperPlugins := "" |} [] [] = Done ([plugin], []) ∧
    version plugin = "11.2.999.999".
Proof.
  refine (proj1 (proj2 (flash_version_padding false false "/opt/flash.so" _))).
  discriminate.
Defined.

(** C9, as the specification states it, fails: a Flash version of five
    components keeps its five components. *)
Lemma flash_version_five_components :
  ¬ (∀ flash_version plugin,
       ComputePluginsFromCommandLine
         {| kEnableRemoting := false;
            kPpapiOutOfProcess := false;
            kPpapiFlashPath := "/opt/flash.so";
            kPpapiFlashVersion := flash_version;
            kRegisterPepperPlugins := "" |} [] [] = Done ([plugin], []) →
       version_components (version plugin) = 4).
Proof.
  intros H. specialize (H "1.2.3.4.5" _ eq_refl). vm_compute in H. discriminate.
Qed.

(** C9, amended: the Flash version is split on '.', its first component
    becomes 10 when empty, and 2, 999 and 999 are appended while it has fewer
    than 2, 3 and 4 components; nothing is removed and no other empty
    component is replaced. The version of the descriptor has as many
    components as the longer of 4 and the raw string, so exactly 4 when the
    raw string has at most 4, and the description is
    "<name> <major>.<minor> r<build>". *)
Theorem flash_version_at_least_four_components
    (out_of_process enable_remoting : bool) (flash_path flash_version : string) :
  flash_path ≠ "" →
  ∃ plugin major minor build more,
    ComputePluginsFromCommandLine
      {| kEnableRemoting := enable_remoting;
         kPpapiOutOfProcess := out_of_process;
         kPpapiFlashPath := flash_path;
         kPpapiFlashVersion := flash_version;
         kRegisterPepperPlugins := "" |} [] [] = Done ([plugin], []) ∧
    pad_flash_version_numbers flash_version = Done (major :: minor :: build :: more) ∧
    major :: minor :: build :: more = padded_numbers flash_version ∧
    version plugin = JoinString (major :: minor :: build :: more) "." ∧
    version_components (version plugin) = 4 `max` version_components flash_version ∧
    (version_components flash_version ≤ 4 → version_components (version plugin) = 4) ∧
    description plugin
      = name plugin +:+ " " +:+ major +:+ "." +:+ minor +:+ " r" +:+ build.
Proof.
  intros Hpath.
  pose proof (padded_numbers_length flash_version) as Hlen.
  pose proof (padded_numbers_free_of_dot flash_version) as Hfree.
  assert (version_components (JoinString (padded_numbers flash_version) ".")
          = 4 `max` version_components flash_version) as Hcomponents.
  { rewrite version_components_JoinString; [done| |done].
    intros Hnil. rewrite Hnil in Hlen. simpl in Hlen. lia. }
  exists (flash_descriptor out_of_process flash_path flash_version).
  destruct (padded_numbers flash_version) as [|major [|minor [|build more]]] eqn:Hpad;
    simpl in Hlen; try lia.
  exists major, minor, build, more. split_and!.
  - by apply flash_only_eq.
  - by rewrite pad_flash_version_numbers_eq, Hpad.
  - done.
  - unfold flash_descriptor. by rewrite Hpad.
  - unfold flash_descriptor. cbn [version]. by rewrite Hpad.
  - intros Hfour. unfold flash_descriptor. cbn [version]. rewrite Hpad, Hcomponents. lia.
  - unfold flash_descriptor. by rewrite Hpad.
Qed.

Lemma flash_version_at_least_four_components_witness :
  ∃ plugin,
    ComputePluginsFromCommandLine
      {| kEnableRemoting := false;
         kPpapiOutOfProcess := true;
         kPpapiFlashPath := "/opt/flash.so";
         kPpapiFlashVersion := "11.5";
         kRegisterPepperPlugins := "" |} [] [] = Done ([plugin], []) ∧
    version_components (version plugin) = 4 ∧
    description plugin = "Shockwave Flash 11.5 r999".
Proof.
  destruct (flash_version_at_least_four_components true false "/opt/flash.so" "11.5")
    as (plugin & major & minor & build & more & Hrun & _ & Hpad & _ & _ & Hfour & Hdesc).
  - discriminate.
  - exists plugin. split_and!; [exact Hrun|apply Hfour; vm_compute; lia|].
    rewrite Hdesc. vm_compute in Hpad. injection Hpad as -> -> -> ->.
    vm_compute in Hrun. by injection Hrun as <-.
Defined.

(** ** Entries with a trailing semicolon *)

Lemma TrimLeading_app_char s c :
  IsWhitespace c = false →
  TrimLeading (s +:+ String c "") = TrimLeading s +:+ String c "".
Proof.
  intros Hc. induction s as [|a s IH]; simpl; [by rewrite Hc|].
  by destruct (IsWhitespace a).
Qed.

Lemma TrimTrailing_app_char s c :
  IsWhitespace c = false →
  TrimTrailing (s +:+ String c "") = s +:+ String c "".
Proof.
  intros Hc. induction s as [|a s IH]; simpl; [by rewrite Hc|].
  rewrite IH. by destruct s.
Qed.

Lemma TrimWhitespace_app_char s c :
  IsWhitespace c = false →
  TrimWhitespace (s +:+ String c "") = TrimLeading s +:+ String c "".
Proof.
  intros Hc. unfold TrimWhitespace.
  by rewrite TrimLeading_app_char, TrimTrailing_app_char.
Qed.

(** C10: an entry "<path>;" splits on ';' into two parts, the second one
    empty; it is accepted, and its descriptor has exactly one MIME type, with
    an empty mime-type string, an empty file extension and the description of
    the plugin. *)
Theorem trailing_semicolon_gives_empty_mime_type
    (cl : CommandLine) (file_and_name : string) :
  contains "," file_and_name = false →
  contains ";" file_and_name = false →
  kRegisterPepperPlugins cl = file_and_name +:+ ";" →
  SplitString (file_and_name +:+ ";") ";" = [TrimWhitespace file_and_name; ""] ∧
  accepted (file_and_name +:+ ";") ∧
  ∃ plugin,
    ComputePluginsFromCommandLine cl [] [] = Done (flash_descriptors cl ++ [plugin], []) ∧
    mime_types plugin
      = [ {| mime_type := ""; file_extension := "";
             mime_description := description plugin |} ].
Proof.
  intros Hcomma Hsemi Hvalue.
  pose proof (SplitString_trailing_sep ";" file_and_name Hsemi) as Hsplit.
  split_and!; [done|by unfold accepted; rewrite Hsplit|].
  rewrite ComputePluginsFromCommandLine_eq.
  unfold command_line_descriptors, command_line_diagnostics, specified_modules.
  rewrite Hvalue.
  assert (string_empty (file_and_name +:+ ";") = false) as -> by by destruct file_and_name.
  rewrite SplitString_without_sep
    by (rewrite contains_app, Hcomma; reflexivity).
  rewrite TrimWhitespace_app_char by reflexivity.
  pose proof (SplitString_trailing_sep ";" (TrimLeading file_and_name)
                (contains_TrimLeading _ _ Hsemi)) as Hentry.
  assert (accepted (TrimLeading file_and_name +:+ ";")) as Hacc
    by (unfold accepted; by rewrite Hentry).
  rewrite filter_cons_True, filter_cons_False, !filter_nil by auto.
  eexists. split; [reflexivity|].
  unfold entry_descriptor. by rewrite Hentry.
Qed.

Lemma trailing_semicolon_gives_empty_mime_type_witness :
  ∃ plugin,
    ComputePluginsFromCommandLine
      {| kEnableRemoting := false;
         kPpapiOutOfProcess := false;
         kPpapiFlashPath := "";
         kPpapiFlashVersion := "";
         kRegisterPepperPlugins := "/a/b#Foo#Desc;" |} [] [] = Done ([plugin], []) ∧
    mime_types plugin
      = [ {| mime_type := ""; file_extension := ""; mime_description := "Desc" |} ].
Proof.
  destruct (trailing_semicolon_gives_empty_mime_type
              {| kEnableRemoting := false;
                 kPpapiOutOfProcess := false;
                 kPpapiFlashPath := "";
                 kPpapiFlashVersion := "";
                 kRegisterPepperPlugins := "/a/b#Foo#Desc;" |} "/a/b#Foo#Desc")
    as (_ & _ & plugin & Hrun & Hmime); [reflexivity..|].
  exists plugin. split; [exact Hrun|].
  rewrite Hmime. vm_compute in Hrun. by injection Hrun as <-.
Defined.

(** ** The live map *)

Lemma String_compare_trans a b c :
  String.compare a b ≠ Gt → String.compare b c ≠ Gt → String.compare a c ≠ Gt.
Proof.
  revert b c. induction a as [|x a IH]; intros [|y b] [|z c]; simpl; try done.
  unfold Ascii.compare.
  destruct (N.compare_spec (N_of_ascii x) (N_of_ascii y)) as [Hxy|Hxy|Hxy];
  destruct (N.compare_spec (N_of_ascii y) (N_of_ascii z)) as [Hyz|Hyz|Hyz];
  destruct (N.compare_spec (N_of_ascii x) (N_of_ascii z)) as [Hxz|Hxz|Hxz];
    try done; try lia; eauto.
Qed.

Lemma String_leb_refl a : String.leb a a = true.
Proof.
  unfold String.leb. pose proof (String.compare_antisym a a) as Hanti.
  by destruct (String.compare a a).
Qed.

Lemma key_le_trans : Transitive key_le.
Proof.
  intros a b c. unfold key_le, String.leb. intros Hab Hbc.
  pose proof (String_compare_trans a.1 b.1 c.1) as Htrans.
  destruct (String.compare a.1 b.1), (String.compare b.1 c.1),
    (String.compare a.1 c.1); try done; by destruct Htrans.
Qed.

Lemma key_le_total : Total key_le.
Proof. intros a b. apply String.leb_total. Qed.

Lemma elem_of_in_key_order (m : gmap FilePath PluginModule) file module :
  (file, module) ∈ in_key_order m ↔ m !! file = Some module.
Proof.
  unfold in_key_order. rewrite merge_sort_Permutation. apply elem_of_map_to_list.
Qed.

Lemma StronglySorted_lookup_le {A} (R : relation A) l i j x y :
  StronglySorted R l → l !! i = Some x → l !! j = Some y → i < j → R x y.
Proof.
  intros Hsorted. revert i j. induction Hsorted as [|a l Hl IH Hall]; [done|].
  intros [|i] [|j] Hi Hj Hlt; simplify_eq/=; try lia.
  - rewrite Forall_forall in Hall. apply Hall. by eapply list_elem_of_lookup_2.
  - apply (IH i j); [done|done|lia].
Qed.

Lemma PluginModuleDead_Done dead_module w file :
  live_modules_ w !! file = Some dead_module →
  ∃ least,
    live_modules_ w !! least = Some dead_module ∧
    String.leb least file = true ∧
    PluginModuleDead dead_module w
    = Done (set_live_modules (delete least (live_modules_ w)) w).
Proof.
  intros Hlive. unfold PluginModuleDead.
  destruct (list_find _ _) as [[i [least module]]|] eqn:Hfind.
  - apply list_find_Some in Hfind as (Hi & Hvalue & Hfirst). simpl in Hvalue. subst module.
    exists least. split_and!; [|  |done].
    + apply elem_of_in_key_order. by eapply list_elem_of_lookup_2.
    + apply elem_of_in_key_order, list_elem_of_lookup in Hlive as [j Hj].
      destruct (decide (j < i)) as [Hlt|Hge]; [by destruct (Hfirst j _ Hj Hlt)|].
      destruct (decide (j = i)) as [->|Hne].
      { rewrite Hi in Hj. injection Hj as ->. apply String_leb_refl. }
      apply (StronglySorted_lookup_le key_le (in_key_order (live_modules_ w))
               i j (least, dead_module) (file, dead_module)); [|done|done|lia].
      apply (@StronglySorted_merge_sort _ key_le _ key_le_trans key_le_total).
  - apply list_find_None in Hfind. rewrite Forall_forall in Hfind.
    destruct (Hfind (file, dead_module)); [|done].
    by apply elem_of_in_key_order.
Qed.

Lemma PluginModuleDead_Fatal dead_module w :
  (∀ file, live_modules_ w !! file ≠ Some dead_module) →
  PluginModuleDead dead_module w = Fatal ModuleNotFound.
Proof.
  intros Habsent. unfold PluginModuleDead.
  destruct (list_find _ _) as [[i [least module]]|] eqn:Hfind; [|done].
  apply list_find_Some in Hfind as (Hi & Hvalue & _). simpl in Hvalue. subst module.
  destruct (Habsent least). apply elem_of_in_key_order. by eapply list_elem_of_lookup_2.
Qed.

(** C1: [AddLiveModule] on a path that has a live entry fails the
    duplicate-registration assertion; on a path that has none it inserts the
    module under that path. Two calls with the same path in a row fail on the
    second. *)
Theorem AddLiveModule_duplicate_is_fatal (file : FilePath) (module : PluginModule) (w : World) :
  (is_Some (live_modules_ w !! file) →
     AddLiveModule file module w = Fatal DuplicateLiveModule) ∧
  (live_modules_ w !! file = None →
     AddLiveModule file module w
     = Done (set_live_modules (<[file := module]> (live_modules_ w)) w) ∧
     ∀ w', AddLiveModule file module w = Done w' →
       GetLiveModule file w' = Some module ∧
       ∀ other, other ≠ file → GetLiveModule other w' = GetLiveModule other w) ∧
  (∀ w' again, AddLiveModule file module w = Done w' →
     AddLiveModule file again w' = Fatal DuplicateLiveModule).
Proof.
  unfold AddLiveModule, GetLiveModule. split_and!.
  - intros [present Hpresent]. case_decide; [congruence|done].
  - intros Habsent. case_decide; [|done]. split; [done|].
    intros w' [= <-]. simpl. split; [by rewrite lookup_insert_eq|].
    intros other Hother. by rewrite lookup_insert_ne.
  - intros w' again. case_decide; [|done]. intros [= <-]. simpl.
    case_decide as Hdup; [|done]. by rewrite lookup_insert_eq in Hdup.
Qed.

Lemma AddLiveModule_duplicate_is_fatal_witness :
  ∃ w',
    AddLiveModule "/a/b" 0 (new_registry [] []) = Done w' ∧
    GetLiveModule "/a/b" w' = Some 0 ∧
    AddLiveModule "/a/b" 1 w' = Fatal DuplicateLiveModule.
Proof.
  destruct (AddLiveModule_duplicate_is_fatal "/a/b" 0 (new_registry [] []))
    as (_ & Hinsert & Htwice).
  destruct Hinsert as [Hdone Hlookup]; [reflexivity|].
  eexists. split_and!; [exact Hdone| |].
  - by apply Hlookup.
  - by apply Htwice.
Defined.

(** C4: [PluginModuleDead] looks for an entry of the live map whose value is
    the module (the first one in key order), removes that entry and leaves
    every other entry as it was; when no entry has the module as its value it
    reaches the assertion. *)
Theorem PluginModuleDead_removes_the_entry (dead_module : PluginModule) (w : World) :
  ((∃ file, live_modules_ w !! file = Some dead_module) →
     ∃ file w',
       PluginModuleDead dead_module w = Done w' ∧
       live_modules_ w !! file = Some dead_module ∧
       (∀ other, live_modules_ w !! other = Some dead_module →
          String.leb file other = true) ∧
       w' = set_live_modules (delete file (live_modules_ w)) w ∧
       live_modules_ w' !! file = None ∧
       (∀ other, other ≠ file → live_modules_ w' !! other = live_modules_ w !! other)) ∧
  ((∀ file, live_modules_ w !! file ≠ Some dead_module) →
     PluginModuleDead dead_module w = Fatal ModuleNotFound).
Proof.
  split; [|apply PluginModuleDead_Fatal].
  intros [file Hfile].
  destruct (PluginModuleDead_Done dead_module w file Hfile) as (least & Hfirst & _ & Hdead).
  exists least, (set_live_modules (delete least (live_modules_ w)) w).
  split_and!; [done|done| |done| |].
  - intros other Hother.
    destruct (PluginModuleDead_Done dead_module w other Hother) as (least' & _ & Hle & Hdead').
    rewrite Hdead in Hdead'. injection Hdead' as Hsame.
    destruct (decide (least = least')) as [->|Hne]; [done|].
    assert (delete least (live_modules_ w) !! least
            = delete least' (live_modules_ w) !! least) as Hlookup by by rewrite Hsame.
    rewrite lookup_delete_eq, lookup_delete_ne, Hfirst in Hlookup by done. done.
  - simpl. apply lookup_delete_eq.
  - intros other Hother. simpl. by apply lookup_delete_ne.
Qed.

Lemma PluginModuleDead_removes_the_entry_witness :
  ∃ w',
    PluginModuleDead 7
      (set_live_modules (<["/a" := 7]> (<["/b" := 8]> ∅)) (new_registry [] [])) = Done w' ∧
    live_modules_ w' !! "/a" = None ∧
    live_modules_ w' !! "/b" = Some 8.
Proof.
  destruct (PluginModuleDead_removes_the_entry 7
              (set_live_modules (<["/a" := 7]> (<["/b" := 8]> ∅)) (new_registry [] [])))
    as [Hfound _].
  destruct Hfound as (file & w' & Hdead & Hfile & _ & _ & Hgone & Hkept).
  - exists "/a". reflexivity.
  - assert (file = "/a") as ->.
    { destruct (decide (file = "/a")) as [|Hne]; [done|]. simpl in Hfile.
      rewrite lookup_insert_ne in Hfile by done.
      destruct (decide (file = "/b")) as [->|Hne'].
      - by rewrite lookup_insert_eq in Hfile.
      - by rewrite lookup_insert_ne in Hfile. }
    exists w'. split_and!; [done|done|].
    rewrite Hkept by done. reflexivity.
Defined.

(** ** Construction *)


Section construction.
Context `{ModuleLoader}.









End construction.









(** ** Teardown *)











(** ** The theorems at concrete inputs *)

Lemma GetInfoForPlugin_first_match_witness :
  ∃ info,
    GetInfoForPlugin "/opt/libpdf.so"
      (new_registry
         (built_in_descriptors example_platform example_command_line example_statics
            ++ command_line_descriptors example_command_line) [])
    = Some info ∧
    info = pdf_plugin "/opt/libpdf.so".
Proof.
  destruct (GetInfoForPlugin_first_match
              example_platform example_command_line example_statics)
    as [_ Hlookup].
  destruct (Hlookup
              (new_registry
                 (built_in_descriptors example_platform example_command_line example_statics
                    ++ command_line_descriptors example_command_line) [])
              "/opt/libpdf.so" eq_refl)
    as (_ & _ & Hbuilt_in).
  destruct (Hbuilt_in (pdf_plugin "/opt/libpdf.so")) as (info & Hscan & _ & _ & Hget).
  - vm_compute. left.
  - reflexivity.
  - exists info. split; [exact Hget|].
    vm_compute in Hscan. by injection Hscan as <-.
Defined.



(** * Further properties of the code *)

(** ** The built-in enumeration *)

(** X1: what [ComputeBuiltInPlugins] found once it finds again once the
    process is sandboxed and no file can be seen any more: called with the
    statics the first call left, on a platform that differs only in
    [PathExists] answering no, it returns the same descriptors and leaves the
    statics as they are. *)
Theorem built_in_plugins_survive_sandbox (pf sandboxed : Platform) (cl : CommandLine)
    (st st1 : Statics) (found : list PepperPluginInfo) :
  ComputeBuiltInPlugins pf cl st [] = (found, st1) →
  FILE_PDF_PLUGIN sandboxed = FILE_PDF_PLUGIN pf →
  FILE_NACL_PLUGIN sandboxed = FILE_NACL_PLUGIN pf →
  ENABLE_REMOTING sandboxed = ENABLE_REMOTING pf →
  (∀ file, PathExists sandboxed file = false) →
  ComputeBuiltInPlugins sandboxed cl st1 [] = (found, st1).
Proof.
  unfold ComputeBuiltInPlugins. intros Hfirst -> -> -> Hblind. revert Hfirst.
  destruct (FILE_PDF_PLUGIN pf) as [pdf|], (FILE_NACL_PLUGIN pf) as [nacl|];
    rewrite ?Hblind;
    destruct st as [[] []]; simpl;
    repeat match goal with
      | |- context [PathExists pf ?f] => destruct (PathExists pf f)
      end; simpl;
    destruct (ENABLE_REMOTING pf && kEnableRemoting cl);
    by intros [= <- <-].
Qed.

Lemma built_in_plugins_survive_sandbox_witness :
  ∃ st1,
    ComputeBuiltInPlugins example_platform example_command_line example_statics []
    = ([pdf_plugin "/opt/libpdf.so"], st1) ∧
    ComputeBuiltInPlugins example_sandboxed example_command_line st1 []
    = ([pdf_plugin "/opt/libpdf.so"], st1).
Proof.
  eexists. split; [reflexivity|].
  apply (built_in_plugins_survive_sandbox example_platform example_sandboxed
           example_command_line example_statics); reflexivity.
Defined.

(** ** The merged list *)

Lemma entry_descriptor_mime_types out_of_process entry :
  accepted entry →
  mime_types (entry_descriptor out_of_process entry) ≠ [] ∧
  Forall (λ m, file_extension m = "" ∧
               mime_description m = description (entry_descriptor out_of_process entry))
    (mime_types (entry_descriptor out_of_process entry)).
Proof.
  unfold accepted, entry_descriptor. intros Hparts. cbn [mime_types description].
  destruct (SplitString entry ";") as [|file_and_name [|mime mimes]];
    [simpl in Hparts; lia..|].
  split; [done|]. apply Forall_fmap, Forall_forall. by intros m _.
Qed.

(** X2: in the list [ComputeList] builds, at most three built-in descriptors
    come first, each one in process, with exactly one MIME type, and internal
    only if it is the remoting plugin; every descriptor after them is not
    internal, runs out of process exactly when the switch is given, and has at
    least one MIME type. *)
Theorem merged_list_shape (pf : Platform) (cl : CommandLine) (st : Statics) :
  ∃ built_in from_command_line log st',
    ComputeBuiltInPlugins pf cl st [] = (built_in, st') ∧
    ComputePluginsFromCommandLine cl [] [] = Done (from_command_line, log) ∧
    ComputeList pf cl st [] [] = Done (built_in ++ from_command_line, log, st') ∧
    length built_in ≤ 3 ∧
    Forall (λ d, is_out_of_process d = false ∧ length (mime_types d) = 1 ∧
                 (is_internal d = false ∨ d = remoting_plugin)) built_in ∧
    Forall (λ d, is_internal d = false ∧
                 is_out_of_process d = kPpapiOutOfProcess cl ∧
                 1 ≤ length (mime_types d)) from_command_line.
Proof.
  exists (built_in_descriptors pf cl st), (command_line_descriptors cl),
    (command_line_diagnostics cl), (ComputeBuiltInPlugins pf cl st []).2.
  split_and!.
  - unfold built_in_descriptors. by destruct (ComputeBuiltInPlugins _ _ _ _).
  - by rewrite ComputePluginsFromCommandLine_eq.
  - by rewrite ComputeList_eq.
  - unfold built_in_descriptors, ComputeBuiltInPlugins.
    destruct (FILE_PDF_PLUGIN pf), (FILE_NACL_PLUGIN pf);
      repeat match goal with |- context [if ?b then _ else _] => destruct b end;
      simpl; lia.
  - unfold built_in_descriptors, ComputeBuiltInPlugins.
    destruct (FILE_PDF_PLUGIN pf), (FILE_NACL_PLUGIN pf);
      repeat match goal with |- context [if ?b then _ else _] => destruct b end;
      simpl; repeat constructor; by right.
  - unfold command_line_descriptors, flash_descriptors. apply Forall_app. split.
    + destruct (string_empty (kPpapiFlashPath cl)); repeat constructor; simpl; lia.
    + apply Forall_fmap, Forall_forall. intros entry [Hacc _]%list_elem_of_filter.
      destruct (entry_descriptor_mime_types (kPpapiOutOfProcess cl) entry Hacc)
        as [Hmime _].
      split_and!; [done|done|].
      destruct (mime_types _); [done|simpl; lia].
Qed.

(** X3: every descriptor taken from the specification string (no Pepper
    Flash given) has at least one MIME type, and each of its MIME types has an
    empty file extension and the description of the descriptor. *)
Theorem specified_mime_types (cl : CommandLine)
    (found : list PepperPluginInfo) (diagnostics : Log) :
  kPpapiFlashPath cl = "" →
  ComputePluginsFromCommandLine cl [] [] = Done (found, diagnostics) →
  Forall (λ d, mime_types d ≠ [] ∧
               Forall (λ m, file_extension m = "" ∧ mime_description m = description d)
                 (mime_types d)) found.
Proof.
  intros Hflash. rewrite ComputePluginsFromCommandLine_eq.
  unfold command_line_descriptors, flash_descriptors. rewrite Hflash. simpl.
  intros [= <- _]. apply Forall_fmap, Forall_forall.
  intros entry [Hacc _]%list_elem_of_filter.
  by apply entry_descriptor_mime_types.
Qed.

Lemma specified_mime_types_witness :
  ∃ found,
    ComputePluginsFromCommandLine example_two_libraries [] [] = Done (found, []) ∧
    length found = 2 ∧
    Forall (λ d, mime_types d ≠ [] ∧
                 Forall (λ m, file_extension m = "" ∧ mime_description m = description d)
                   (mime_types d)) found.
Proof.
  eexists. split_and!; [reflexivity|reflexivity|].
  by apply (specified_mime_types example_two_libraries _ []).
Defined.

(** X4: of a non-empty specification string every comma-separated entry is
    accounted for: the descriptors added and the diagnostics logged are
    together as many as the entries (one more than the commas), plus the
    Pepper Flash descriptor when its path is given; the descriptors and the
    log passed in are kept in front, and every diagnostic is the one about the
    missing MIME type. *)
Theorem every_entry_is_parsed_or_diagnosed (cl : CommandLine)
    (plugins : list PepperPluginInfo) (log : Log) :
  kRegisterPepperPlugins cl ≠ "" →
  ∃ found diagnostics,
    ComputePluginsFromCommandLine cl plugins log
    = Done (plugins ++ found, log ++ diagnostics) ∧
    length found + length diagnostics
    = (if string_empty (kPpapiFlashPath cl) then 0 else 1)
      + S (occurrences "," (kRegisterPepperPlugins cl)) ∧
    Forall (λ message, message = kMimeTypeNotFound) diagnostics.
Proof.
  intros Hvalue. rewrite ComputePluginsFromCommandLine_eq.
  exists (command_line_descriptors cl), (command_line_diagnostics cl).
  split; [done|].
  unfold command_line_descriptors, command_line_diagnostics, flash_descriptors,
    specified_modules.
  destruct (kRegisterPepperPlugins cl) as [|c value] eqn:Hspec; [done|].
  cbn [string_empty]. rewrite <- Hspec. split.
  - rewrite length_app, length_fmap, length_replicate, <- (SplitString_length _ ",").
    pose proof (Permutation_length
                  (filter_app_complement accepted
                     (SplitString (kRegisterPepperPlugins cl) ","))) as Hsplit.
    rewrite length_app in Hsplit.
    destruct (string_empty (kPpapiFlashPath cl)); simpl; lia.
  - apply Forall_forall. by intros message [-> _]%elem_of_replicate.
Qed.

Lemma every_entry_is_parsed_or_diagnosed_witness :
  ∃ found diagnostics,
    ComputePluginsFromCommandLine
      {| kEnableRemoting := false;
         kPpapiOutOfProcess := false;
         kPpapiFlashPath := "/opt/flash.so";
         kPpapiFlashVersion := "11";
         kRegisterPepperPlugins := "/a,/b;x/y,/c" |} [] []
    = Done (found, diagnostics) ∧
    length found + length diagnostics = 4.
Proof.
  destruct (every_entry_is_parsed_or_diagnosed
              {| kEnableRemoting := false;
                 kPpapiOutOfProcess := false;
                 kPpapiFlashPath := "/opt/flash.so";
                 kPpapiFlashVersion := "11";
                 kRegisterPepperPlugins := "/a,/b;x/y,/c" |} [] [])
    as (found & diagnostics & Hrun & Hcount & _); [discriminate|].
  exists found, diagnostics. split; [exact Hrun|exact Hcount].
Defined.

(** ** Padding a padded Flash version *)

Lemma TrimTrailing_idempotent s : TrimTrailing (TrimTrailing s) = TrimTrailing s.
Proof.
  induction s as [|c s IH]; simpl; [done|].
  destruct (TrimTrailing s) as [|k kept] eqn:Hkept.
  - destruct (IsWhitespace c) eqn:Hc; simpl; [done|]. by rewrite Hc.
  - change (TrimTrailing (String c (String k kept)))
      with (match TrimTrailing (String k kept) with
            | EmptyString => if IsWhitespace c then EmptyString else String c EmptyString
            | String k' kept' => String c (String k' kept')
            end).
    by rewrite IH.
Qed.

Lemma TrimLeading_head s :
  TrimLeading s = EmptyString ∨
  ∃ c rest, TrimLeading s = String c rest ∧ IsWhitespace c = false.
Proof.
  induction s as [|c s IH]; simpl; [by left|].
  destruct (IsWhitespace c) eqn:Hc; [done|]. right. by exists c, s.
Qed.

Lemma TrimTrailing_head c rest :
  IsWhitespace c = false → ∃ kept, TrimTrailing (String c rest) = String c kept.
Proof.
  intros Hc. simpl. destruct (TrimTrailing rest); rewrite ?Hc; eauto.
Qed.

Lemma TrimWhitespace_idempotent s :
  TrimWhitespace (TrimWhitespace s) = TrimWhitespace s.
Proof.
  unfold TrimWhitespace.
  destruct (TrimLeading_head s) as [->|(c & rest & -> & Hc)]; [done|].
  destruct (TrimTrailing_head c rest Hc) as [kept Hkept].
  rewrite Hkept. cbn [TrimLeading]. rewrite Hc, <- Hkept.
  apply TrimTrailing_idempotent.
Qed.

Lemma pieces_JoinString sep parts :
  parts ≠ [] → Forall (λ p, contains sep p = false) parts →
  pieces sep (JoinString parts sep) = parts.
Proof.
  intros Hne Hfree. induction Hfree as [|p ps Hp Hps IH]; [done|].
  destruct ps as [|q ps]; [by apply pieces_without_sep|].
  change (JoinString (p :: q :: ps) sep)
    with (p +:+ String sep (JoinString (q :: ps) sep)).
  rewrite pieces_app_sep by done. by rewrite IH.
Qed.

Lemma padded_numbers_trimmed flash_version :
  Forall (λ p, TrimWhitespace p = p) (padded_numbers flash_version).
Proof.
  unfold padded_numbers, SplitString.
  assert (Forall (λ p, TrimWhitespace p = p)
            (TrimWhitespace <$> pieces "." flash_version)) as Htrimmed.
  { apply Forall_fmap, Forall_forall. intros p _. apply TrimWhitespace_idempotent. }
  destruct (TrimWhitespace <$> pieces "." flash_version) as [|first others];
    [by repeat constructor|].
  inversion_clear Htrimmed. constructor.
  - by destruct (string_empty first).
  - apply Forall_app. split; [done|].
    apply (Forall_drop _ _ ["2"; "999"; "999"]). by repeat constructor.
Qed.

Lemma padded_numbers_idempotent flash_version :
  padded_numbers (JoinString (padded_numbers flash_version) ".")
  = padded_numbers flash_version.
Proof.
  pose proof (padded_numbers_length flash_version) as Hlen.
  pose proof (padded_numbers_free_of_dot flash_version) as Hfree.
  pose proof (padded_numbers_trimmed flash_version) as Htrimmed.
  assert (∃ first others, padded_numbers flash_version = first :: others ∧
                          string_empty first = false) as (first & others & Hpad & Hfirst).
  { unfold padded_numbers.
    destruct (SplitString flash_version ".") as [|first others]; [by eexists _, _|].
    eexists _, _. split; [done|]. by destruct first. }
  assert (SplitString (JoinString (padded_numbers flash_version) ".") "."
          = padded_numbers flash_version) as Hsplit.
  { unfold SplitString. rewrite pieces_JoinString; [|by rewrite Hpad|done].
    clear -Htrimmed. induction Htrimmed as [|p ps Hp _ IH]; [done|].
    rewrite fmap_cons, Hp. by f_equal. }
  unfold padded_numbers at 1. rewrite Hsplit, Hpad, Hfirst.
  rewrite Hpad in Hlen. simpl in Hlen.
  rewrite drop_ge by (simpl; lia). by rewrite app_nil_r.
Qed.

(** X5: padding is idempotent. Given back as the raw Flash version, the
    version of the descriptor the parser built yields the very same
    descriptor. *)
Theorem flash_version_padding_is_idempotent
    (out_of_process enable_remoting : bool) (flash_path flash_version : string) :
  flash_path ≠ "" →
  let flash raw :=
    ComputePluginsFromCommandLine
      {| kEnableRemoting := enable_remoting;
         kPpapiOutOfProcess := out_of_process;
         kPpapiFlashPath := flash_path;
         kPpapiFlashVersion := raw;
         kRegisterPepperPlugins := "" |} [] [] in
  ∃ plugin,
    flash flash_version = Done ([plugin], []) ∧
    flash (version plugin) = Done ([plugin], []).
Proof.
  intros Hpath flash. unfold flash.
  exists (flash_descriptor out_of_process flash_path flash_version).
  split; [by apply flash_only_eq|].
  rewrite flash_only_eq by done.
  assert (version (flash_descriptor out_of_process flash_path flash_version)
          = JoinString (padded_numbers flash_version) ".") as -> by done.
  unfold flash_descriptor. by rewrite padded_numbers_idempotent.
Qed.

Lemma flash_version_padding_is_idempotent_witness :
  ∃ plugin,
    ComputePluginsFromCommandLine
      {| kEnableRemoting := false;
         kPpapiOutOfProcess := false;
         kPpapiFlashPath := "/opt/flash.so";
         kPpapiFlashVersion := ".7";
         kRegisterPepperPlugins := "" |} [] [] = Done ([plugin], []) ∧
    version plugin = "10.7.999.999" ∧
    ComputePluginsFromCommandLine
      {| kEnableRemoting := false;
         kPpapiOutOfProcess := false;
         kPpapiFlashPath := "/opt/flash.so";
         kPpapiFlashVersion := "10.7.999.999";
         kRegisterPepperPlugins := "" |} [] [] = Done ([plugin], []).
Proof.
  destruct (flash_version_padding_is_idempotent false false "/opt/flash.so" ".7")
    as (plugin & Hrun & Hagain); [discriminate|].
  assert (version plugin = "10.7.999.999") as Hversion.
  { vm_compute in Hrun. by injection Hrun as <-. }
  exists plugin. split_and!; [exact Hrun|exact Hversion|].
  by rewrite Hversion in Hagain.
Defined.
